(** * User-interface events of the display subsystem (display/glEvents.h)

    The header declares the pressed/released constants, the event type
    enumeration [glEventType], the handler callback type [glEventHandler]
    and the two prototypes [glRegisterEvents] / [glUnregisterEvents].

    Integers are modelled as [Z]; [uint16_t] and [uint32_t] values are kept
    in range by an explicit reduction modulo the word size.  Pointers are
    addresses, [NULL] being address 0. *)

From Stdlib Require Import ZArith List Bool String Lia.
Import ListNotations.
Local Open Scope Z_scope.

(** ** Pressed / released constants (glEvents.h, lines 32-53) *)

Definition BUTTON_PRESSED : Z := 1.
Definition BUTTON_RELEASED : Z := 0.
Definition KEY_PRESSED : Z := 1.
Definition KEY_RELEASED : Z := 0.

(** The two axes that carry a pressed/released state. *)
Inductive state_axis : Type :=
| AxisButton
| AxisKey.

Definition pressed_constant (ax : state_axis) : Z :=
  match ax with
  | AxisButton => BUTTON_PRESSED
  | AxisKey => KEY_PRESSED
  end.

Definition released_constant (ax : state_axis) : Z :=
  match ax with
  | AxisButton => BUTTON_RELEASED
  | AxisKey => KEY_RELEASED
  end.

(** ** The event type enumeration (glEvents.h, lines 71-143) *)

Inductive glEventType : Type :=
| MOUSE_MOVE
| MOUSE_BUTTON
| MOUSE_WHEEL
| KEY_STATE
| KEY_RAW
| KEY_CHAR
| WINDOW_CLOSED.

(** An enumerator as it is written in an [enum] body: a name and an
    optional initialiser. *)
Record enumerator : Type := mkEnumerator {
  en_tag : glEventType;
  en_name : string;
  en_init : option Z
}.

(** The body of [enum glEventType], in source order.  Only [MOUSE_MOVE]
    has an initialiser. *)
Definition glEventType_decl : list enumerator :=
  [ mkEnumerator MOUSE_MOVE "MOUSE_MOVE" (Some 0);
    mkEnumerator MOUSE_BUTTON "MOUSE_BUTTON" None;
    mkEnumerator MOUSE_WHEEL "MOUSE_WHEEL" None;
    mkEnumerator KEY_STATE "KEY_STATE" None;
    mkEnumerator KEY_RAW "KEY_RAW" None;
    mkEnumerator KEY_CHAR "KEY_CHAR" None;
    mkEnumerator WINDOW_CLOSED "WINDOW_CLOSED" None ].

(** The language rule for enumerator values: an initialiser gives the
    value, otherwise it is the previous value plus one (zero for the first). *)
Fixpoint enum_values (next : Z) (l : list enumerator) : list (glEventType * Z) :=
  match l with
  | [] => []
  | e :: rest =>
      let v := match en_init e with Some i => i | None => next end in
      (en_tag e, v) :: enum_values (v + 1) rest
  end.

Definition glEventType_table : list (glEventType * Z) :=
  enum_values 0 glEventType_decl.

Definition glEventType_eqb (s t : glEventType) : bool :=
  match s, t with
  | MOUSE_MOVE, MOUSE_MOVE
  | MOUSE_BUTTON, MOUSE_BUTTON
  | MOUSE_WHEEL, MOUSE_WHEEL
  | KEY_STATE, KEY_STATE
  | KEY_RAW, KEY_RAW
  | KEY_CHAR, KEY_CHAR
  | WINDOW_CLOSED, WINDOW_CLOSED => true
  | _, _ => false
  end.

Fixpoint table_lookup (t : glEventType) (tbl : list (glEventType * Z)) : option Z :=
  match tbl with
  | [] => None
  | (s, v) :: rest => if glEventType_eqb s t then Some v else table_lookup t rest
  end.

(** The integer value of an enumerator. *)
Definition glEventType_value (t : glEventType) : Z :=
  match table_lookup t glEventType_table with
  | Some v => v
  | None => 0
  end.

(** All enumerators, in declaration order. *)
Definition glEventType_all : list glEventType := map en_tag glEventType_decl.

(** Reading an integer back as an enumerator. *)
Definition glEventType_of_value (v : Z) : option glEventType :=
  find (fun t => glEventType_value t =? v) glEventType_all.

(** ** Machine integers *)

Definition to_uint16 (v : Z) : Z := v mod 65536.
Definition to_uint32 (v : Z) : Z := v mod 4294967296.

(** A 32-bit two's complement [int]. *)
Definition to_int (v : Z) : Z := (v + 2147483648) mod 4294967296 - 2147483648.

(** ** C types of the handler interface *)

Definition uint16_t : Type := Z.
Definition uint32_t : Type := Z.
Definition c_int : Type := Z.

(** A [void*]: an address. *)
Definition void_ptr : Type := Z.
Definition NULL : void_ptr := 0.

(** ** The handler callback type (glEvents.h, line 160)

    A pointer to a function of four parameters, [uint16_t event], [int a],
    [int b] and [void* user], returning [bool]. *)

Definition glEventHandler : Type := uint16_t -> c_int -> c_int -> void_ptr -> bool.

(** The C types that occur in the header. *)
Inductive c_type : Type :=
| T_bool
| T_uint16_t
| T_uint32_t
| T_int
| T_void_ptr.

Record c_param : Type := mkParam {
  p_type : c_type;
  p_name : string
}.

(** A function type as it is declared: the result type and the parameters
    in order. *)
Record c_signature : Type := mkSignature {
  sig_result : c_type;
  sig_params : list c_param
}.

(** The typedef of line 160, as written. *)
Definition glEventHandler_decl : c_signature :=
  mkSignature T_bool
    [ mkParam T_uint16_t "event";
      mkParam T_int "a";
      mkParam T_int "b";
      mkParam T_void_ptr "user" ].

Definition c_type_carrier (t : c_type) : Type :=
  match t with
  | T_bool => bool
  | T_uint16_t => uint16_t
  | T_uint32_t => uint32_t
  | T_int => c_int
  | T_void_ptr => void_ptr
  end.

Fixpoint function_type (ps : list c_param) (res : Type) : Type :=
  match ps with
  | [] => res
  | q :: rest => c_type_carrier (p_type q) -> function_type rest res
  end.

Definition signature_type (s : c_signature) : Type :=
  function_type (sig_params s) (c_type_carrier (sig_result s)).

(** The value a parameter of type [t] receives when the actual argument
    is [v]: integers are reduced to the width of the type, a pointer is
    passed as it is. *)
Definition c_convert (t : c_type) (v : Z) : Z :=
  match t with
  | T_bool => if v =? 0 then 0 else 1
  | T_uint16_t => to_uint16 v
  | T_uint32_t => to_uint32 v
  | T_int => to_int v
  | T_void_ptr => v
  end.

(** A pointer to a handler function is compared by address; [code] maps the
    address to the function it designates. *)
Definition fn_ptr : Type := Z.
Definition code_memory : Type := fn_ptr -> glEventHandler.

(** What the boolean result of a handler stands for (lines 152-153):
    [true] the message was handled, [false] it was skipped or not handled. *)
Inductive handler_outcome : Type :=
| Handled
| SkippedOrNotHandled.

Definition outcome_of_result (r : bool) : handler_outcome :=
  if r then Handled else SkippedOrNotHandled.

(** One call of a handler: the callee and its four actual arguments. *)
Record invocation : Type := mkInvocation {
  inv_callback : fn_ptr;
  inv_event : uint16_t;
  inv_a : c_int;
  inv_b : c_int;
  inv_user : void_ptr
}.

(** The call itself: each actual argument is converted to the type of its
    parameter, in the order of the typedef. *)
Definition invoke (code : code_memory) (i : invocation) : bool :=
  code (inv_callback i)
       (c_convert T_uint16_t (inv_event i))
       (c_convert T_int (inv_a i))
       (c_convert T_int (inv_b i))
       (c_convert T_void_ptr (inv_user i)).

(** ** Call forms of the two prototypes (glEvents.h, lines 170 and 179)

    [void glRegisterEvents(glEventHandler callback, void* user=NULL, uint32_t display=0)]
    [void glUnregisterEvents(glEventHandler callback, void* user=NULL)]

    Default arguments are trailing, so a call site has one of these shapes. *)

Inductive register_call : Type :=
| RegisterCall1 (callback : fn_ptr)
| RegisterCall2 (callback : fn_ptr) (user : void_ptr)
| RegisterCall3 (callback : fn_ptr) (user : void_ptr) (display : uint32_t).

Inductive unregister_call : Type :=
| UnregisterCall1 (callback : fn_ptr)
| UnregisterCall2 (callback : fn_ptr) (user : void_ptr).

(** The actual arguments after the omitted ones took their defaults. *)
Definition register_args (c : register_call) : fn_ptr * void_ptr * uint32_t :=
  match c with
  | RegisterCall1 cb => (cb, NULL, 0)
  | RegisterCall2 cb u => (cb, u, 0)
  | RegisterCall3 cb u d => (cb, u, to_uint32 d)
  end.

Definition unregister_args (c : unregister_call) : fn_ptr * void_ptr :=
  match c with
  | UnregisterCall1 cb => (cb, NULL)
  | UnregisterCall2 cb u => (cb, u)
  end.

(** ** The handler registry *)

(** A registration: the callback, the user pointer and the display it was
    registered on. *)
Record eventHandler : Type := mkEventHandler {
  callback : fn_ptr;
  user : void_ptr;
  display : uint32_t
}.

Definition eventHandler_eq_dec (x y : eventHandler) : {x = y} + {x <> y}.
Proof. decide equality; apply Z.eq_dec. Defined.

(** The registered handlers, oldest first. *)
Definition registry : Type := list eventHandler.

Definition handler_matches (cb : fn_ptr) (u : void_ptr) (h : eventHandler) : bool :=
  (callback h =? cb) && (user h =? u).

(** The handler has the same function pointer or the same user pointer. *)
Definition handler_matches_either (cb : fn_ptr) (u : void_ptr)
    (h : eventHandler) : bool :=
  (callback h =? cb) || (user h =? u).

(** Modelled from the spec: the body of [glRegisterEvents], which the header
    only declares.  The callback has to be non-null; a null callback is
    rejected or ignored and the registry stays as it is.  Otherwise a
    handler is added for future events on the given display; handlers are
    kept in registration order. *)
Definition glRegisterEvents (cb : fn_ptr) (u : void_ptr) (d : uint32_t)
    (reg : registry) : registry :=
  if cb =? NULL then reg else reg ++ [mkEventHandler cb u d].

(** Searching the registered handlers and removing those that a rule
    selects; the others keep their order. *)
Definition unregister_with (removes : fn_ptr -> void_ptr -> eventHandler -> bool)
    (cb : fn_ptr) (u : void_ptr) (reg : registry) : registry :=
  filter (fun h => negb (removes cb u h)) reg.

(** What the header says of the handlers that [glUnregisterEvents] removes
    (lines 175-177): those "that have the same function pointer and/or user
    pointer".  A rule follows this when it selects every handler that is
    equal in both pointers and no handler that differs in both. *)
Definition follows_header
    (removes : fn_ptr -> void_ptr -> eventHandler -> bool) : Prop :=
  forall (cb : fn_ptr) (u : void_ptr) (h : eventHandler),
    (handler_matches cb u h = true -> removes cb u h = true)
    /\ (removes cb u h = true -> handler_matches_either cb u h = true).

(** Modelled from the spec: the body of [glUnregisterEvents], which the
    header only declares.  Where the spec ("matching both") and the header's
    own description of the function differ, the header is followed, word for
    word: the handlers with the same function pointer and/or user pointer
    are removed. *)
Definition glUnregisterEvents (cb : fn_ptr) (u : void_ptr)
    (reg : registry) : registry :=
  unregister_with handler_matches_either cb u reg.

(** The other way to read "and/or", with the default [user=NULL] of line
    179: the function pointer has to be the same, and the user pointer too
    unless none is given. *)
Definition removes_unless_omitted (cb : fn_ptr) (u : void_ptr)
    (h : eventHandler) : bool :=
  (callback h =? cb) && ((u =? NULL) || (user h =? u)).

(** Whether some active handler is registered for the pair. *)
Definition is_registered (cb : fn_ptr) (u : void_ptr) (reg : registry) : bool :=
  existsb (handler_matches cb u) reg.

(** Modelled from the spec: what is stated of [glRegisterEvents] whichever
    way its body stores the handlers.  After registering a non-null
    callback there is an active handler for the pair, and the handlers of
    other pairs stay registered. *)
Definition registers_as_specified
    (register : fn_ptr -> void_ptr -> uint32_t -> registry -> registry) : Prop :=
  forall (cb : fn_ptr) (u : void_ptr) (d : uint32_t) (reg : registry),
    (cb <> NULL -> is_registered cb u (register cb u d reg) = true)
    /\ (forall h : eventHandler,
          In h reg -> handler_matches cb u h = false ->
          In h (register cb u d reg)).

(** A call site, for any body behind the prototype: the omitted arguments
    take their defaults, then the function runs. *)
Section Calls.

Variable register_body : fn_ptr -> void_ptr -> uint32_t -> registry -> registry.
Variable unregister_body : fn_ptr -> void_ptr -> registry -> registry.

Definition call_register (c : register_call) (reg : registry) : registry :=
  let '(cb, u, d) := register_args c in register_body cb u d reg.

Definition call_unregister (c : unregister_call) (reg : registry) : registry :=
  let '(cb, u) := unregister_args c in unregister_body cb u reg.

End Calls.

Definition run_register_call : register_call -> registry -> registry :=
  call_register glRegisterEvents.

Definition run_unregister_call : unregister_call -> registry -> registry :=
  call_unregister glUnregisterEvents.

(** ** Events and their messages *)

Inductive press_state : Type :=
| Pressed
| Released.

Definition button_state_value (s : press_state) : c_int :=
  match s with
  | Pressed => BUTTON_PRESSED
  | Released => BUTTON_RELEASED
  end.

Definition key_state_value (s : press_state) : c_int :=
  match s with
  | Pressed => KEY_PRESSED
  | Released => KEY_RELEASED
  end.

Inductive wheel_direction : Type :=
| ScrolledUp
| ScrolledDown.

(** [a = -1 for scrolled up, or +1 for scrolled down] (line 97). *)
Definition wheel_value (d : wheel_direction) : c_int :=
  match d with
  | ScrolledUp => -1
  | ScrolledDown => 1
  end.

(** The user-interface events, with the payload each one documents. *)
Inductive ui_event : Type :=
| MouseMoved (x y : c_int)
| MouseButtonChanged (button : c_int) (s : press_state)
| MouseWheelScrolled (d : wheel_direction)
| KeyStateChanged (sym : c_int) (s : press_state)
| KeyRawChanged (sym : c_int) (s : press_state)
| KeyCharEntered (c : c_int)
| WindowClosing.

(** An event message: the type and the a & b message values. *)
Record message : Type := mkMessage {
  msg_event : uint16_t;
  msg_a : c_int;
  msg_b : c_int
}.

(** The enumerator as it is passed in the [uint16_t event] parameter. *)
Definition event_tag (t : glEventType) : uint16_t :=
  to_uint16 (glEventType_value t).

(** The enumerator under which an event is sent. *)
Definition event_type_of (e : ui_event) : glEventType :=
  match e with
  | MouseMoved _ _ => MOUSE_MOVE
  | MouseButtonChanged _ _ => MOUSE_BUTTON
  | MouseWheelScrolled _ => MOUSE_WHEEL
  | KeyStateChanged _ _ => KEY_STATE
  | KeyRawChanged _ _ => KEY_RAW
  | KeyCharEntered _ => KEY_CHAR
  | WindowClosing => WINDOW_CLOSED
  end.

(** Modelled from the spec: the producer of event messages in the display
    subsystem, which is not part of the header.  Each event is sent with the
    a & b values documented for its type; a WINDOW_CLOSED message has both
    values zero.  [pad] is what the producer leaves in a value that the
    event type does not use, about which nothing is stated. *)
Definition message_of (pad : c_int) (e : ui_event) : message :=
  match e with
  | MouseMoved x y => mkMessage (event_tag MOUSE_MOVE) x y
  | MouseButtonChanged id s =>
      mkMessage (event_tag MOUSE_BUTTON) id (button_state_value s)
  | MouseWheelScrolled d => mkMessage (event_tag MOUSE_WHEEL) (wheel_value d) pad
  | KeyStateChanged k s => mkMessage (event_tag KEY_STATE) k (key_state_value s)
  | KeyRawChanged k s => mkMessage (event_tag KEY_RAW) k (key_state_value s)
  | KeyCharEntered c => mkMessage (event_tag KEY_CHAR) c pad
  | WindowClosing => mkMessage (event_tag WINDOW_CLOSED) 0 0
  end.

Definition button_state_of_value (v : c_int) : option press_state :=
  if v =? BUTTON_PRESSED then Some Pressed
  else if v =? BUTTON_RELEASED then Some Released
  else None.

Definition key_state_of_value (v : c_int) : option press_state :=
  if v =? KEY_PRESSED then Some Pressed
  else if v =? KEY_RELEASED then Some Released
  else None.

Definition wheel_of_value (v : c_int) : option wheel_direction :=
  if v =? -1 then Some ScrolledUp
  else if v =? 1 then Some ScrolledDown
  else None.

(** How a handler reads a message, following the description of each
    enumerator (lines 73-142).  A value that the event type does not use is
    not looked at. *)
Definition read_message (ev : uint16_t) (a b : c_int) : option ui_event :=
  match glEventType_of_value ev with
  | Some MOUSE_MOVE => Some (MouseMoved a b)
  | Some MOUSE_BUTTON => option_map (MouseButtonChanged a) (button_state_of_value b)
  | Some MOUSE_WHEEL => option_map MouseWheelScrolled (wheel_of_value a)
  | Some KEY_STATE => option_map (KeyStateChanged a) (key_state_of_value b)
  | Some KEY_RAW => option_map (KeyRawChanged a) (key_state_of_value b)
  | Some KEY_CHAR => Some (KeyCharEntered a)
  | Some WINDOW_CLOSED => Some WindowClosing
  | None => None
  end.

(** Modelled from the spec: the dispatch routine of the display subsystem,
    which is not part of the header.  It invokes all handlers registered on
    the display, in registration order, passing the event type, the two
    message values and the user pointer of the registration. *)
Definition dispatchEvent (d : uint32_t) (m : message) (reg : registry)
    : list invocation :=
  map (fun h => mkInvocation (callback h) (msg_event m) (msg_a m) (msg_b m) (user h))
      (filter (fun h => display h =? d) reg).

(** The handler calls caused by event [e] on display [d]. *)
Definition deliver (d : uint32_t) (pad : c_int) (e : ui_event) (reg : registry)
    : list invocation :=
  dispatchEvent d (message_of pad e) reg.

(** * Properties of the declarations *)

Lemma glEventType_eqb_eq (s t : glEventType) :
  glEventType_eqb s t = true <-> s = t.
Proof.
  split.
  - destruct s, t; simpl; intros H; try reflexivity; discriminate H.
  - intros ->. destruct t; reflexivity.
Qed.

Lemma glEventType_value_range (t : glEventType) :
  0 <= glEventType_value t <= 6.
Proof. destruct t; vm_compute; split; discriminate. Qed.

Lemma glEventType_of_value_value (t : glEventType) :
  glEventType_of_value (glEventType_value t) = Some t.
Proof. destruct t; reflexivity. Qed.

Lemma glEventType_value_inj (s t : glEventType) :
  glEventType_value s = glEventType_value t -> s = t.
Proof.
  intros H.
  assert (E : Some s = Some t).
  { rewrite <- (glEventType_of_value_value s), H.
    apply glEventType_of_value_value. }
  now injection E.
Qed.

(** C1: the event type enumeration has exactly the seven enumerators
    MOUSE_MOVE, MOUSE_BUTTON, MOUSE_WHEEL, KEY_STATE, KEY_RAW, KEY_CHAR,
    WINDOW_CLOSED, in that order; MOUSE_MOVE is 0 and the values are the
    consecutive integers 0 to 6. *)
Theorem glEventType_seven_consecutive :
  glEventType_all =
    [MOUSE_MOVE; MOUSE_BUTTON; MOUSE_WHEEL; KEY_STATE; KEY_RAW; KEY_CHAR;
     WINDOW_CLOSED]
  /\ map en_name glEventType_decl =
       ["MOUSE_MOVE"; "MOUSE_BUTTON"; "MOUSE_WHEEL"; "KEY_STATE"; "KEY_RAW";
        "KEY_CHAR"; "WINDOW_CLOSED"]%string
  /\ List.length glEventType_all = 7%nat
  /\ NoDup glEventType_all
  /\ (forall t : glEventType, In t glEventType_all)
  /\ glEventType_value MOUSE_MOVE = 0
  /\ map glEventType_value glEventType_all = [0; 1; 2; 3; 4; 5; 6]
  /\ map snd glEventType_table = [0; 1; 2; 3; 4; 5; 6].
Proof.
  repeat split; try reflexivity.
  - unfold glEventType_all; simpl.
    repeat (constructor; [simpl; intuition discriminate | ]).
    constructor.
  - intros t. destruct t; simpl; tauto.
Qed.

(** C2: on each of the two axes (mouse buttons, keys) the pressed constant
    is 1 and the released constant is 0. *)
Theorem pressed_released_constants :
  BUTTON_PRESSED = 1 /\ BUTTON_RELEASED = 0
  /\ KEY_PRESSED = 1 /\ KEY_RELEASED = 0
  /\ (forall ax : state_axis,
        pressed_constant ax = 1 /\ released_constant ax = 0).
Proof.
  repeat split; try reflexivity; destruct ax; reflexivity.
Qed.

(** * The registry *)

Section Registry.

Variables (cb : fn_ptr) (u : void_ptr).

Lemma handler_matches_spec (h : eventHandler) :
  handler_matches cb u h = true <-> callback h = cb /\ user h = u.
Proof.
  unfold handler_matches.
  rewrite andb_true_iff, !Z.eqb_eq. reflexivity.
Qed.

Lemma handler_matches_false (h : eventHandler) :
  handler_matches cb u h = false <-> callback h <> cb \/ user h <> u.
Proof.
  unfold handler_matches.
  rewrite andb_false_iff, !Z.eqb_neq. reflexivity.
Qed.

Lemma handler_matches_mk (d : uint32_t) :
  handler_matches cb u (mkEventHandler cb u d) = true.
Proof. apply handler_matches_spec. split; reflexivity. Qed.

Lemma handler_matches_either_spec (h : eventHandler) :
  handler_matches_either cb u h = true <-> callback h = cb \/ user h = u.
Proof.
  unfold handler_matches_either.
  rewrite orb_true_iff, !Z.eqb_eq. reflexivity.
Qed.

Lemma is_registered_spec (reg : registry) :
  is_registered cb u reg = true <->
  exists h, In h reg /\ callback h = cb /\ user h = u.
Proof.
  unfold is_registered. rewrite existsb_exists.
  split; intros [h [Hin Hm]]; exists h; split; trivial;
    now apply handler_matches_spec.
Qed.

Lemma is_registered_app (r1 r2 : registry) :
  is_registered cb u (r1 ++ r2) =
  is_registered cb u r1 || is_registered cb u r2.
Proof. apply existsb_app. Qed.

End Registry.

(** ** The two readings of "and/or" follow the header *)

Lemma handler_matches_either_follows_header :
  follows_header handler_matches_either.
Proof.
  intros cb u h. split; [ | trivial].
  intros Hm. apply handler_matches_spec in Hm.
  apply handler_matches_either_spec. tauto.
Qed.

Lemma removes_unless_omitted_follows_header :
  follows_header removes_unless_omitted.
Proof.
  intros cb u h. unfold removes_unless_omitted. split.
  - intros Hm. apply handler_matches_spec in Hm. destruct Hm as [Hc Hu].
    apply andb_true_iff. split; [now apply Z.eqb_eq | ].
    apply orb_true_iff. right. now apply Z.eqb_eq.
  - intros Hr. apply andb_true_iff in Hr. destruct Hr as [Hc _].
    apply handler_matches_either_spec. left. now apply Z.eqb_eq.
Qed.

(** The spec's reading, removal on both pointers only, follows it too. *)
Lemma handler_matches_follows_header : follows_header handler_matches.
Proof.
  intros cb u h. split; [trivial | ].
  intros Hm. apply handler_matches_spec in Hm.
  apply handler_matches_either_spec. tauto.
Qed.

(** ** Removal, for every rule *)

Section Removal.

Variable removes : fn_ptr -> void_ptr -> eventHandler -> bool.
Variables (cb : fn_ptr) (u : void_ptr).

Lemma unregister_with_app (r1 r2 : registry) :
  unregister_with removes cb u (r1 ++ r2) =
  unregister_with removes cb u r1 ++ unregister_with removes cb u r2.
Proof. unfold unregister_with. apply filter_app. Qed.

Lemma unregister_with_In (reg : registry) (h : eventHandler) :
  In h (unregister_with removes cb u reg) <->
  In h reg /\ removes cb u h = false.
Proof.
  unfold unregister_with. rewrite filter_In, negb_true_iff. reflexivity.
Qed.

Lemma unregister_with_count (reg : registry) (h : eventHandler) :
  count_occ eventHandler_eq_dec (unregister_with removes cb u reg) h =
  if removes cb u h then 0%nat else count_occ eventHandler_eq_dec reg h.
Proof.
  unfold unregister_with.
  induction reg as [| k reg IH]; simpl.
  - destruct (removes cb u h); reflexivity.
  - destruct (removes cb u k) eqn:Ek; simpl.
    + destruct (eventHandler_eq_dec k h) as [-> | _].
      * rewrite Ek in IH |- *. exact IH.
      * exact IH.
    + destruct (eventHandler_eq_dec k h) as [-> | _].
      * rewrite Ek in IH |- *. now rewrite IH.
      * exact IH.
Qed.

Hypothesis Hheader : follows_header removes.

Lemma removes_when_both (h : eventHandler) :
  callback h = cb -> user h = u -> removes cb u h = true.
Proof.
  intros Hc Hu. apply Hheader. apply handler_matches_spec. tauto.
Qed.

Lemma keeps_when_neither (h : eventHandler) :
  callback h <> cb -> user h <> u -> removes cb u h = false.
Proof.
  intros Hc Hu.
  destruct (removes cb u h) eqn:E; trivial.
  apply Hheader in E. apply handler_matches_either_spec in E. tauto.
Qed.

Lemma is_registered_unregister_with (reg : registry) :
  is_registered cb u (unregister_with removes cb u reg) = false.
Proof.
  destruct (is_registered cb u (unregister_with removes cb u reg)) eqn:E;
    trivial.
  apply is_registered_spec in E. destruct E as [h [Hin [Hc Hu]]].
  apply unregister_with_In in Hin. destruct Hin as [_ Hk].
  rewrite (removes_when_both h Hc Hu) in Hk. discriminate Hk.
Qed.

Lemma is_registered_unregister_with_unrelated (cb' : fn_ptr) (u' : void_ptr)
    (reg : registry) :
  cb' <> cb -> u' <> u ->
  is_registered cb' u' (unregister_with removes cb u reg) =
  is_registered cb' u' reg.
Proof.
  intros Hc Hu.
  apply eq_true_iff_eq. rewrite !is_registered_spec.
  split; intros [h [Hin [Ec Eu]]]; exists h; (split; [ | tauto]).
  - apply unregister_with_In in Hin. tauto.
  - apply unregister_with_In. split; [exact Hin | ].
    apply keeps_when_neither; congruence.
Qed.

End Removal.

(** ** Registration *)

Lemma glRegisterEvents_as_specified : registers_as_specified glRegisterEvents.
Proof.
  intros cb u d reg. unfold glRegisterEvents. split.
  - intros Hnn. apply Z.eqb_neq in Hnn. rewrite Hnn.
    rewrite is_registered_app. unfold is_registered at 2. simpl.
    rewrite handler_matches_mk. simpl. apply orb_true_r.
  - intros h Hin _. destruct (cb =? NULL); [exact Hin | ].
    apply in_or_app. now left.
Qed.

Section Registration.

Variable register : fn_ptr -> void_ptr -> uint32_t -> registry -> registry.
Hypothesis Hspec : registers_as_specified register.

Lemma is_registered_register_same (cb : fn_ptr) (u : void_ptr) (d : uint32_t)
    (reg : registry) :
  cb <> NULL -> is_registered cb u (register cb u d reg) = true.
Proof. apply Hspec. Qed.

Lemma is_registered_register_other (cb cb' : fn_ptr) (u u' : void_ptr)
    (d : uint32_t) (reg : registry) :
  cb' <> cb \/ u' <> u ->
  is_registered cb' u' reg = true ->
  is_registered cb' u' (register cb u d reg) = true.
Proof.
  intros Hdiff Hreg.
  apply is_registered_spec in Hreg. destruct Hreg as [h [Hin [Hc Hu]]].
  apply is_registered_spec. exists h. split; [ | tauto].
  apply Hspec; [exact Hin | ].
  apply handler_matches_false. destruct Hdiff; [left | right]; congruence.
Qed.

End Registration.




Lemma removes_unless_omitted_partial_match :
  unregister_with removes_unless_omitted 4096 NULL [mkEventHandler 4096 2 0] = []
  /\ glUnregisterEvents 4096 NULL [mkEventHandler 4096 2 0] = [].
Proof. split; reflexivity. Qed.

(** C4: from any registry, register(callback, user) followed by
    unregister(callback, user) leaves no active handler for that pair. *)
Theorem register_then_unregister_leaves_none :
  forall (reg : registry) (cb : fn_ptr) (u : void_ptr) (d : uint32_t),
    is_registered cb u
      (glUnregisterEvents cb u (glRegisterEvents cb u d reg)) = false
    /\ ~ (exists h : eventHandler,
            In h (glUnregisterEvents cb u (glRegisterEvents cb u d reg))
            /\ callback h = cb /\ user h = u).
Proof.
  intros reg cb u d.
  assert (E : is_registered cb u
                (glUnregisterEvents cb u (glRegisterEvents cb u d reg)) = false).
  { unfold glUnregisterEvents.
    apply is_registered_unregister_with.
    exact handler_matches_either_follows_header. }
  split; [exact E | ].
  intros Hex. apply is_registered_spec in Hex. congruence.
Qed.

(** The same for every body of the two functions that follows the spec and
    the header. *)
Lemma register_then_unregister_leaves_none_any_body
    (register : fn_ptr -> void_ptr -> uint32_t -> registry -> registry)
    (removes : fn_ptr -> void_ptr -> eventHandler -> bool)
    (reg : registry) (cb : fn_ptr) (u : void_ptr) (d : uint32_t) :
  follows_header removes ->
  is_registered cb u (unregister_with removes cb u (register cb u d reg)) = false.
Proof. intros Hh. now apply is_registered_unregister_with. Qed.




(** C9: the user pointer is optional and defaults to NULL in both register
    and unregister, and the display of register is optional and defaults
    to 0.  A call that omits them runs as the call that passes NULL and 0,
    whatever the bodies of the two functions are. *)
Theorem default_arguments :
  forall (cb : fn_ptr) (u : void_ptr),
    NULL = 0
    /\ register_args (RegisterCall1 cb) = (cb, NULL, 0)
    /\ register_args (RegisterCall2 cb u) = (cb, u, 0)
    /\ unregister_args (UnregisterCall1 cb) = (cb, NULL)
    /\ (forall (body : fn_ptr -> void_ptr -> uint32_t -> registry -> registry)
               (reg : registry),
          call_register body (RegisterCall1 cb) reg = body cb NULL 0 reg
          /\ call_register body (RegisterCall2 cb u) reg = body cb u 0 reg
          /\ call_register body (RegisterCall1 cb) reg =
               call_register body (RegisterCall3 cb NULL 0) reg
          /\ call_register body (RegisterCall2 cb u) reg =
               call_register body (RegisterCall3 cb u 0) reg)
    /\ (forall (body : fn_ptr -> void_ptr -> registry -> registry)
               (reg : registry),
          call_unregister body (UnregisterCall1 cb) reg = body cb NULL reg
          /\ call_unregister body (UnregisterCall1 cb) reg =
               call_unregister body (UnregisterCall2 cb NULL) reg).
Proof.
  intros cb u. repeat split.
Qed.

(** * Event messages and their delivery *)

Lemma event_tag_value (t : glEventType) : event_tag t = glEventType_value t.
Proof. destruct t; reflexivity. Qed.

Lemma event_tag_inj (s t : glEventType) : event_tag s = event_tag t -> s = t.
Proof. rewrite !event_tag_value. apply glEventType_value_inj. Qed.

Lemma message_of_event (pad : c_int) (e : ui_event) :
  msg_event (message_of pad e) = glEventType_value (event_type_of e).
Proof. destruct e; reflexivity. Qed.

Lemma button_state_value_binary (s : press_state) :
  button_state_value s = 1 \/ button_state_value s = 0.
Proof. destruct s; [left | right]; reflexivity. Qed.

Lemma key_state_value_binary (s : press_state) :
  key_state_value s = 1 \/ key_state_value s = 0.
Proof. destruct s; [left | right]; reflexivity. Qed.

Lemma read_message_of (pad : c_int) (e : ui_event) :
  read_message (msg_event (message_of pad e)) (msg_a (message_of pad e))
               (msg_b (message_of pad e)) = Some e.
Proof.
  destruct e as [x y | id s | d | k s | k s | c | ];
    try reflexivity; try (destruct s; reflexivity).
  destruct d; reflexivity.
Qed.

(** Every call made by a dispatch carries the message unchanged and comes
    from a registration on the display. *)
Lemma dispatchEvent_In (d : uint32_t) (m : message) (reg : registry)
    (i : invocation) :
  In i (dispatchEvent d m reg) <->
  exists h, In h reg /\ display h = d
            /\ i = mkInvocation (callback h) (msg_event m) (msg_a m) (msg_b m) (user h).
Proof.
  unfold dispatchEvent. rewrite in_map_iff.
  split.
  - intros [h [Ei Hin]]. apply filter_In in Hin. destruct Hin as [Hin Hd].
    exists h. apply Z.eqb_eq in Hd. auto.
  - intros [h [Hin [Hd Ei]]]. exists h. split; [auto | ].
    apply filter_In. split; [exact Hin | now apply Z.eqb_eq].
Qed.

Lemma deliver_message (d : uint32_t) (pad : c_int) (e : ui_event)
    (reg : registry) (i : invocation) :
  In i (deliver d pad e reg) ->
  inv_event i = msg_event (message_of pad e)
  /\ inv_a i = msg_a (message_of pad e)
  /\ inv_b i = msg_b (message_of pad e).
Proof.
  unfold deliver. intros Hin. apply dispatchEvent_In in Hin.
  destruct Hin as [h [_ [_ ->]]]. simpl. auto.
Qed.

(** C6: every event delivered to a handler has one of the seven enumerated
    types, and when the type is MOUSE_BUTTON, KEY_STATE or KEY_RAW the
    value b is 1 (pressed) or 0 (released). *)
Theorem delivered_type_enumerated_state_binary :
  forall (d : uint32_t) (pad : c_int) (e : ui_event) (reg : registry)
         (i : invocation),
    In i (deliver d pad e reg) ->
    (exists t : glEventType,
        In t glEventType_all /\ inv_event i = glEventType_value t)
    /\ (inv_event i = glEventType_value MOUSE_BUTTON
        \/ inv_event i = glEventType_value KEY_STATE
        \/ inv_event i = glEventType_value KEY_RAW ->
        inv_b i = 1 \/ inv_b i = 0).
Proof.
  intros d pad e reg i Hin.
  apply deliver_message in Hin. destruct Hin as (Hev & _ & Hb).
  rewrite message_of_event in Hev.
  split.
  - exists (event_type_of e). split; [ | exact Hev].
    destruct (event_type_of e); simpl; tauto.
  - rewrite Hev, Hb. intros Hty.
    assert (Ht : event_type_of e = MOUSE_BUTTON \/ event_type_of e = KEY_STATE
                 \/ event_type_of e = KEY_RAW).
    { destruct Hty as [H | [H | H]]; apply glEventType_value_inj in H; auto. }
    destruct e as [x y | id s | w | k s | k s | c | ]; simpl in Ht;
      try (destruct Ht as [Ht | [Ht | Ht]]; discriminate Ht);
      destruct s; simpl; [left | right | left | right | left | right];
      reflexivity.
Qed.

Lemma delivered_type_enumerated_state_binary_witness :
  let i := mkInvocation 4096 1 3 1 7 in
  In i (deliver 0 0 (MouseButtonChanged 3 Pressed) [mkEventHandler 4096 7 0])
  /\ (exists t : glEventType,
         In t glEventType_all /\ inv_event i = glEventType_value t)
  /\ inv_b i = 1.
Proof.
  intros i.
  assert (Hin : In i (deliver 0 0 (MouseButtonChanged 3 Pressed)
                        [mkEventHandler 4096 7 0])).
  { simpl. left. reflexivity. }
  destruct (delivered_type_enumerated_state_binary 0 0
              (MouseButtonChanged 3 Pressed) [mkEventHandler 4096 7 0] i Hin)
    as [Hty _].
  split; [exact Hin | split; [exact Hty | reflexivity]].
Defined.

(** C7: a delivered WINDOW_CLOSED event has a = 0 and b = 0. *)
Theorem window_closed_payload_zero :
  forall (d : uint32_t) (pad : c_int) (e : ui_event) (reg : registry)
         (i : invocation),
    In i (deliver d pad e reg) ->
    inv_event i = glEventType_value WINDOW_CLOSED ->
    inv_a i = 0 /\ inv_b i = 0.
Proof.
  intros d pad e reg i Hin Hty.
  apply deliver_message in Hin. destruct Hin as (Hev & Ha & Hb).
  rewrite Hev, message_of_event in Hty.
  apply glEventType_value_inj in Hty.
  rewrite Ha, Hb.
  destruct e; simpl in Hty; try discriminate Hty.
  split; reflexivity.
Qed.

Lemma window_closed_payload_zero_witness :
  let i := mkInvocation 4096 6 0 0 7 in
  In i (deliver 0 99 WindowClosing [mkEventHandler 4096 7 0])
  /\ inv_event i = glEventType_value WINDOW_CLOSED
  /\ inv_a i = 0 /\ inv_b i = 0.
Proof.
  intros i.
  assert (Hin : In i (deliver 0 99 WindowClosing [mkEventHandler 4096 7 0])).
  { simpl. left. reflexivity. }
  assert (Hty : inv_event i = glEventType_value WINDOW_CLOSED) by reflexivity.
  split; [exact Hin | split; [exact Hty | ]].
  exact (window_closed_payload_zero 0 99 WindowClosing
           [mkEventHandler 4096 7 0] i Hin Hty).
Defined.

(** C10: a delivered MOUSE_WHEEL event has a = -1 or a = +1; -1 stands for
    scrolled up and +1 for scrolled down; b is not used: whatever it holds,
    the handler reads the same event. *)
Theorem mouse_wheel_payload :
  forall (d : uint32_t) (pad : c_int) (e : ui_event) (reg : registry)
         (i : invocation),
    In i (deliver d pad e reg) ->
    inv_event i = glEventType_value MOUSE_WHEEL ->
    (inv_a i = -1 \/ inv_a i = 1)
    /\ (inv_a i = -1 <-> e = MouseWheelScrolled ScrolledUp)
    /\ (inv_a i = 1 <-> e = MouseWheelScrolled ScrolledDown)
    /\ (forall b : c_int, read_message (inv_event i) (inv_a i) b = Some e).
Proof.
  intros d pad e reg i Hin Hty.
  apply deliver_message in Hin. destruct Hin as (Hev & Ha & _).
  rewrite Hev, message_of_event in Hty.
  apply glEventType_value_inj in Hty.
  rewrite Hev, Ha.
  destruct e as [x y | id s | w | k s | k s | c | ]; simpl in Hty;
    try discriminate Hty.
  destruct w; simpl.
  - split; [left; reflexivity | ].
    split; [split; reflexivity | ].
    split; [split; intros H; discriminate H | reflexivity].
  - split; [right; reflexivity | ].
    split; [split; intros H; discriminate H | ].
    split; [split; reflexivity | reflexivity].
Qed.

Lemma mouse_wheel_payload_witness :
  let i := mkInvocation 4096 2 (-1) 99 7 in
  In i (deliver 0 99 (MouseWheelScrolled ScrolledUp) [mkEventHandler 4096 7 0])
  /\ inv_event i = glEventType_value MOUSE_WHEEL
  /\ (inv_a i = -1 \/ inv_a i = 1)
  /\ read_message (inv_event i) (inv_a i) 12345 =
       Some (MouseWheelScrolled ScrolledUp).
Proof.
  intros i.
  assert (Hin : In i (deliver 0 99 (MouseWheelScrolled ScrolledUp)
                        [mkEventHandler 4096 7 0])).
  { simpl. left. reflexivity. }
  assert (Hty : inv_event i = glEventType_value MOUSE_WHEEL) by reflexivity.
  destruct (mouse_wheel_payload 0 99 (MouseWheelScrolled ScrolledUp)
              [mkEventHandler 4096 7 0] i Hin Hty) as (Ha & _ & _ & Hb).
  split; [exact Hin | split; [exact Hty | split; [exact Ha | apply Hb]]].
Defined.

Lemma to_uint16_range (v : Z) : 0 <= to_uint16 v < 65536.
Proof. unfold to_uint16. apply Z.mod_pos_bound. reflexivity. Qed.

Lemma to_int_range (v : Z) : -2147483648 <= to_int v < 2147483648.
Proof.
  unfold to_int.
  pose proof (Z.mod_pos_bound (v + 2147483648) 4294967296 eq_refl). lia.
Qed.

Lemma to_int_id (v : Z) : -2147483648 <= v < 2147483648 -> to_int v = v.
Proof.
  intros Hr. unfold to_int. rewrite Z.mod_small by lia. lia.
Qed.

Lemma to_uint16_id (v : Z) : 0 <= v < 65536 -> to_uint16 v = v.
Proof. intros Hr. unfold to_uint16. now apply Z.mod_small. Qed.

(** C8: a handler takes four parameters, the event type, the message values
    a and b and the user pointer given at registration, and returns a
    boolean: true when it handled the event, false when it skipped or did
    not handle it. *)
Theorem glEventHandler_signature :
  sig_result glEventHandler_decl = T_bool
  /\ List.length (sig_params glEventHandler_decl) = 4%nat
  /\ map p_type (sig_params glEventHandler_decl) =
       [T_uint16_t; T_int; T_int; T_void_ptr]
  /\ map p_name (sig_params glEventHandler_decl) =
       ["event"; "a"; "b"; "user"]%string
  /\ signature_type glEventHandler_decl = glEventHandler
  /\ (forall (code : code_memory) (i : invocation),
        exists ev a b : Z,
          invoke code i = code (inv_callback i) ev a b (inv_user i)
          /\ ev = to_uint16 (inv_event i) /\ 0 <= ev < 65536
          /\ a = to_int (inv_a i) /\ -2147483648 <= a < 2147483648
          /\ b = to_int (inv_b i) /\ -2147483648 <= b < 2147483648)
  /\ (forall (code : code_memory) (d : uint32_t) (pad : c_int) (e : ui_event)
             (reg : registry) (i : invocation),
        In i (deliver d pad e reg) ->
        exists h : eventHandler,
          In h reg /\ display h = d
          /\ invoke code i =
             code (callback h) (glEventType_value (event_type_of e))
                  (to_int (msg_a (message_of pad e)))
                  (to_int (msg_b (message_of pad e))) (user h))
  /\ (forall (d : uint32_t) (m : message) (reg : registry),
        map (fun i => (inv_callback i, inv_user i)) (dispatchEvent d m reg) =
        map (fun h => (callback h, user h))
            (filter (fun h => display h =? d) reg))
  /\ (forall (d : uint32_t) (m : message) (cb : fn_ptr) (u : void_ptr),
        cb <> NULL ->
        dispatchEvent d m (glRegisterEvents cb u d []) =
        [mkInvocation cb (msg_event m) (msg_a m) (msg_b m) u])
  /\ (forall (code : code_memory) (i : invocation),
        (outcome_of_result (invoke code i) = Handled <->
         invoke code i = true)
        /\ (outcome_of_result (invoke code i) = SkippedOrNotHandled <->
            invoke code i = false)).
Proof.
  split; [reflexivity | ].
  split; [reflexivity | ].
  split; [reflexivity | ].
  split; [reflexivity | ].
  split; [reflexivity | ].
  split.
  { intros code i.
    exists (to_uint16 (inv_event i)), (to_int (inv_a i)), (to_int (inv_b i)).
    split; [reflexivity | ].
    split; [reflexivity | split; [apply to_uint16_range | ] ].
    split; [reflexivity | split; [apply to_int_range | ] ].
    split; [reflexivity | apply to_int_range]. }
  split.
  { intros code d pad e reg i Hin.
    unfold deliver in Hin. apply dispatchEvent_In in Hin.
    destruct Hin as [h [Hin [Hd ->]]].
    exists h. split; [exact Hin | split; [exact Hd | ] ].
    unfold invoke. simpl.
    rewrite message_of_event, to_uint16_id; [reflexivity | ].
    pose proof (glEventType_value_range (event_type_of e)). lia. }
  split.
  { intros d m reg. unfold dispatchEvent. rewrite map_map. reflexivity. }
  split.
  { intros d m cb u Hnn. unfold dispatchEvent, glRegisterEvents.
    apply Z.eqb_neq in Hnn. rewrite Hnn. simpl.
    rewrite Z.eqb_refl. reflexivity. }
  intros code i.
  destruct (invoke code i); simpl; split; split; intros H;
    try reflexivity; discriminate H.
Qed.

Lemma glEventHandler_signature_witness :
  let i := mkInvocation 4096 65538 2147483648 (-1) 7 in
  let code := fun (_ : fn_ptr) (ev : uint16_t) (a b : c_int) (_ : void_ptr) =>
                (ev =? 2) && (a =? -2147483648) && (b =? -1) in
  4096 <> NULL
  /\ dispatchEvent 0 (mkMessage 65538 2147483648 (-1))
       (glRegisterEvents 4096 7 0 []) = [i]
  /\ invoke code i = true
  /\ outcome_of_result (invoke code i) = Handled.
Proof.
  intros i code.
  assert (Hnn : 4096 <> NULL) by discriminate.
  destruct glEventHandler_signature
    as (_ & _ & _ & _ & _ & _ & _ & _ & Hreg & Hout).
  split; [exact Hnn | ].
  split; [exact (Hreg 0 (mkMessage 65538 2147483648 (-1)) 4096 7 Hnn) | ].
  assert (Hrun : invoke code i = true) by reflexivity.
  split; [exact Hrun | ].
  apply (Hout code i). exact Hrun.
Defined.

(** * The enumeration seen through the [uint16_t event] parameter *)

Lemma glEventType_of_value_Some (v : Z) (t : glEventType) :
  glEventType_of_value v = Some t <-> glEventType_value t = v.
Proof.
  split.
  - intros H. unfold glEventType_of_value in H.
    apply find_some in H. destruct H as [_ H]. now apply Z.eqb_eq in H.
  - intros <-. apply glEventType_of_value_value.
Qed.

Lemma glEventType_of_value_None (v : Z) :
  glEventType_of_value v = None <-> v < 0 \/ 6 < v.
Proof.
  split.
  - intros H.
    destruct (Z_lt_dec v 0) as [Hlo | Hlo]; [now left | ].
    destruct (Z_lt_dec 6 v) as [Hhi | Hhi]; [now right | ].
    exfalso.
    assert (Hin : exists t, glEventType_value t = v).
    { assert (Hv : v = 0 \/ v = 1 \/ v = 2 \/ v = 3 \/ v = 4 \/ v = 5 \/ v = 6)
        by lia.
      destruct Hv as [-> | [-> | [-> | [-> | [-> | [-> | ->]]]]]];
        [ exists MOUSE_MOVE | exists MOUSE_BUTTON | exists MOUSE_WHEEL
        | exists KEY_STATE | exists KEY_RAW | exists KEY_CHAR
        | exists WINDOW_CLOSED ]; reflexivity. }
    destruct Hin as [t Ht].
    apply glEventType_of_value_Some in Ht. congruence.
  - intros Hout.
    destruct (glEventType_of_value v) as [t | ] eqn:E; trivial.
    apply glEventType_of_value_Some in E.
    pose proof (glEventType_value_range t). lia.
Qed.

(** X1: an enumerator passed in the [uint16_t event] parameter of a handler
    keeps its value, and two different enumerators never arrive as the same
    event value. *)
Theorem enumerator_survives_uint16 :
  forall s t : glEventType,
    to_uint16 (glEventType_value t) = glEventType_value t
    /\ 0 <= event_tag t < 65536
    /\ glEventType_of_value (event_tag t) = Some t
    /\ (event_tag s = event_tag t <-> s = t).
Proof.
  intros s t.
  split; [destruct t; reflexivity | ].
  split; [rewrite event_tag_value; pose proof (glEventType_value_range t); lia | ].
  split; [rewrite event_tag_value; apply glEventType_of_value_value | ].
  split; [apply event_tag_inj | intros ->; reflexivity].
Qed.

(** X2: the [event] parameter is wider than the enumeration.  A 16-bit
    value names an enumerator exactly when that enumerator has this value,
    and it names none exactly when it is 7 or more. *)
Theorem event_parameter_wider_than_enum :
  forall v : uint16_t,
    to_uint16 v = v ->
    (forall t : glEventType,
        glEventType_of_value v = Some t <-> glEventType_value t = v)
    /\ (glEventType_of_value v = None <-> 7 <= v).
Proof.
  intros v Hv.
  split; [intros t; apply glEventType_of_value_Some | ].
  rewrite glEventType_of_value_None.
  unfold to_uint16 in Hv.
  assert (Hr : 0 <= v < 65536).
  { rewrite <- Hv. apply Z.mod_pos_bound. reflexivity. }
  lia.
Qed.

Lemma event_parameter_wider_than_enum_witness :
  to_uint16 7 = 7
  /\ glEventType_of_value 7 = None
  /\ to_uint16 65535 = 65535
  /\ glEventType_of_value 65535 = None.
Proof.
  assert (H7 : to_uint16 7 = 7) by reflexivity.
  assert (Hmax : to_uint16 65535 = 65535) by reflexivity.
  destruct (event_parameter_wider_than_enum 7 H7) as [_ [_ Hn7]].
  destruct (event_parameter_wider_than_enum 65535 Hmax) as [_ [_ Hnmax]].
  split; [exact H7 | split; [apply Hn7; discriminate | ]].
  split; [exact Hmax | apply Hnmax; discriminate].
Defined.
